(** * PyCascading function decorators (python/pycascading/decorators.py)

    A shallow embedding of the decorator layer: the private helper
    [_function_decorator], the closure [fun_decorator] it returns, and the
    eleven exported decorators built from it.  Decorated functions are
    mutable Python objects, so the embedding threads an explicit store of
    [DecoratedFunction] instances through every call. *)

From stdpp Require Import gmap strings list fin_maps.

(** ** Constants of the Java side

    decorators.py reads enum constants off two Java classes of the
    com.twitter.pycascading package.  Only the members the module names are
    needed; each enum is an inductive type with the member names as
    written in the source. *)

Module CascadingBaseOperationWrapper.

Inductive ConvertInputTuples : Set :=
| NONE
| PYTHON_LIST
| PYTHON_DICT.

End CascadingBaseOperationWrapper.

Module CascadingRecordProducerWrapper.

Inductive OutputMethod : Set :=
| YIELDS_OR_RETURNS
| COLLECTS
| YIELDS.

Inductive OutputType : Set :=
| AUTO
| PYTHON_LIST
| TUPLE.

Inductive FlowProcessPassIn : Set :=
| NO
| YES.

End CascadingRecordProducerWrapper.

(** ** Python values *)

(** Object identities of [DecoratedFunction] instances. *)
Abbreviation loc := nat (only parsing).

(** The values that flow through the module.  [PyFun id] is any object that
    is not a [DecoratedFunction] and has no structure the module looks at:
    a plain function, told apart from others only by its identity.
    [PyRef l] is a reference to the [DecoratedFunction] instance stored at
    [l]; two references are the same object exactly when the locations
    agree. *)
#[warnings="-register-all"]
Inductive pyval : Type :=
| PyNone
| PyInt (n : Z)
| PyStr (s : string)
| PyList (items : list pyval)
| PyFun (id : nat)
| PyConvertInputTuples (c : CascadingBaseOperationWrapper.ConvertInputTuples)
| PyOutputMethod (c : CascadingRecordProducerWrapper.OutputMethod)
| PyOutputType (c : CascadingRecordProducerWrapper.OutputType)
| PyFlowProcessPassIn (c : CascadingRecordProducerWrapper.FlowProcessPassIn)
| PyRef (l : loc).

(** A Python dict with string keys, as every dict of the module is. *)
Abbreviation dict := (gmap string pyval) (only parsing).

(** [d.get(k)]: the value under [k], or [None] when the key is missing. *)
Definition dict_get (d : dict) (k : string) : pyval :=
  default PyNone (d !! k).

(** ** The interpreter state *)

(** What can happen to a plain callable: it is called, or looked into
    (argument count and the like). *)
Inductive event : Type :=
| Invoked (f : pyval) (args : list pyval)
| Inspected (f : pyval).

(** [heap] maps each live [DecoratedFunction] to its [decorators] dict;
    [trace] lists, oldest first, what has been done to plain callables. *)
Record world : Type := World {
  heap : gmap loc (gmap string pyval);
  trace : list event
}.

Definition set_heap (f : gmap loc (gmap string pyval) → gmap loc (gmap string pyval))
    (σ : world) : world :=
  World (f (heap σ)) (trace σ).

(** Statements run in a state monad over [world]; [None] is a raised
    exception. *)
Definition M (A : Type) : Type := world → option (A * world).

#[export] Instance M_ret : MRet M := λ A a σ, Some (a, σ).

#[export] Instance M_bind : MBind M := λ A B k m σ,
  match m σ with
  | Some (a, σ') => k a σ'
  | None => None
  end.

(** Calling or inspecting a plain callable leaves a mark on the trace. *)
Definition emit (e : event) : M unit :=
  λ σ, Some ((), World (heap σ) (trace σ ++ [e])).

(** Modelled from the spec: the class [DecoratedFunction] lives in
    pycascading.pipe, which is not among the sources at hand.  Following
    the spec's data model (a descriptor is a record of attributes that is
    created when a plain callable is first tagged and accumulates
    attributes afterwards), [DecoratedFunction()] allocates a new object
    whose [decorators] dict is empty. *)
Definition DecoratedFunction_new : M pyval :=
  λ σ, let l := fresh (dom (heap σ)) in
       Some (PyRef l, set_heap (insert l ∅) σ).

(** [isinstance(x, DecoratedFunction)]. *)
Definition isinstance_DecoratedFunction (x : pyval) : bool :=
  match x with
  | PyRef _ => true
  | _ => false
  end.

(** [dff.decorators]: an [AttributeError] on anything that is not a live
    [DecoratedFunction]. *)
Definition get_decorators (dff : pyval) : M (gmap string pyval) :=
  λ σ, match dff with
       | PyRef l => match heap σ !! l with
                    | Some d => Some (d, σ)
                    | None => None
                    end
       | _ => None
       end.

(** Writes back the dict of the object [dff] refers to. *)
Definition put_decorators (dff : pyval) (d : gmap string pyval) : M unit :=
  λ σ, match dff with
       | PyRef l => Some ((), set_heap (insert l d) σ)
       | _ => None
       end.

(** [dff.decorators[k] = v]. *)
Definition setitem (dff : pyval) (k : string) (v : pyval) : M unit :=
  d ← get_decorators dff; put_decorators dff (<[k := v]> d).

(** [dff.decorators.update(other)]: every key of [other] is written,
    keys of the dict that [other] lacks stay. *)
Definition update (dff : pyval) (other : gmap string pyval) : M unit :=
  d ← get_decorators dff; put_decorators dff (other ∪ d).

(** ** decorators.py *)

Module decorators.

(** Lines 67-84 of [fun_decorator]: the object the attributes go to. *)
Definition fun_decorator_dff (function_or_callabledict : pyval) : M pyval :=
  if isinstance_DecoratedFunction function_or_callabledict then
    (* Another decorator is next *)
    mret function_or_callabledict
  else
    (* The original function comes next *)
    dff ← DecoratedFunction_new;
    setitem dff "function" function_or_callabledict;;
    setitem dff "type" (PyStr "none");;
    setitem dff "input_conversion"
      (PyConvertInputTuples CascadingBaseOperationWrapper.NONE);;
    setitem dff "output_method"
      (PyOutputMethod CascadingRecordProducerWrapper.YIELDS_OR_RETURNS);;
    setitem dff "output_type"
      (PyOutputType CascadingRecordProducerWrapper.AUTO);;
    setitem dff "flow_process_pass_in"
      (PyFlowProcessPassIn CascadingRecordProducerWrapper.NO);;
    setitem dff "args" PyNone;;
    setitem dff "kwargs" PyNone;;
    mret dff.

(** The closure [fun_decorator], with the captured [additional_parameters]
    as its first argument. *)
Definition fun_decorator (additional_parameters : gmap string pyval)
    (function_or_callabledict : pyval) : M pyval :=
  dff ← fun_decorator_dff function_or_callabledict;
  (* Add the attributes to the decorated function *)
  update dff additional_parameters;;
  mret dff.

Definition _function_decorator (additional_parameters : gmap string pyval)
    : pyval → M pyval :=
  fun_decorator additional_parameters.

Definition numargs_expected (num : pyval) : pyval → M pyval :=
  _function_decorator {[ "numargs_expected" := num ]}.

Definition python_list_expected : pyval → M pyval :=
  _function_decorator
    {[ "input_conversion" :=
         PyConvertInputTuples CascadingBaseOperationWrapper.PYTHON_LIST ]}.

Definition python_dict_expected : pyval → M pyval :=
  _function_decorator
    {[ "input_conversion" :=
         PyConvertInputTuples CascadingBaseOperationWrapper.PYTHON_DICT ]}.

Definition collects_output : pyval → M pyval :=
  _function_decorator
    {[ "output_method" :=
         PyOutputMethod CascadingRecordProducerWrapper.COLLECTS ]}.

Definition yields : pyval → M pyval :=
  _function_decorator
    {[ "output_method" :=
         PyOutputMethod CascadingRecordProducerWrapper.YIELDS ]}.

Definition produces_python_list : pyval → M pyval :=
  _function_decorator
    {[ "output_type" :=
         PyOutputType CascadingRecordProducerWrapper.PYTHON_LIST ]}.

Definition produces_tuples : pyval → M pyval :=
  _function_decorator
    {[ "output_type" :=
         PyOutputType CascadingRecordProducerWrapper.TUPLE ]}.

Definition flowprocess_expected : pyval → M pyval :=
  _function_decorator
    {[ "flow_process_pass_in" :=
         PyFlowProcessPassIn CascadingRecordProducerWrapper.YES ]}.

Definition filter : pyval → M pyval :=
  _function_decorator {[ "type" := PyStr "filter" ]}.

(** [produces] defaults to [None]: [map()] is [map PyNone]. *)
Definition map (produces : pyval) : pyval → M pyval :=
  _function_decorator
    (<[ "type" := PyStr "map" ]> {[ "produces" := produces ]}).

(** [produces] defaults to [None]: [reduce()] is [reduce PyNone]. *)
Definition reduce (produces : pyval) : pyval → M pyval :=
  _function_decorator
    (<[ "type" := PyStr "reduce" ]> {[ "produces" := produces ]}).

End decorators.

(** ** Sequences of decorator applications *)

(** The dict a plain callable's new [DecoratedFunction] holds when line 86
    is reached, written in the order of the assignments of lines 73-84. *)
Definition default_decorators (function : pyval) : gmap string pyval :=
  <[ "kwargs" := PyNone ]>
  (<[ "args" := PyNone ]>
  (<[ "flow_process_pass_in" :=
       PyFlowProcessPassIn CascadingRecordProducerWrapper.NO ]>
  (<[ "output_type" := PyOutputType CascadingRecordProducerWrapper.AUTO ]>
  (<[ "output_method" :=
       PyOutputMethod CascadingRecordProducerWrapper.YIELDS_OR_RETURNS ]>
  (<[ "input_conversion" :=
       PyConvertInputTuples CascadingBaseOperationWrapper.NONE ]>
  (<[ "type" := PyStr "none" ]>
  (<[ "function" := function ]> ∅))))))).

(** Decorators with the dicts [ps], applied one after the other, first
    first: each is handed what the one before returned. *)
Fixpoint decorate_all (ps : list (gmap string pyval)) (x : pyval) : M pyval :=
  match ps with
  | [] => mret x
  | p :: ps' => y ← decorators._function_decorator p x; decorate_all ps' y
  end.

(** The value the last dict of [ps] that has the key [k] gives it. *)
Fixpoint last_write (ps : list (gmap string pyval)) (k : string) : option pyval :=
  match ps with
  | [] => None
  | p :: ps' =>
      match last_write ps' k with
      | Some v => Some v
      | None => p !! k
      end
  end.

(** [x] is something a caller can hold in state [σ]: a reference points to
    a live object. *)
Definition live (σ : world) (x : pyval) : bool :=
  match x with
  | PyRef l => match heap σ !! l with Some _ => true | None => false end
  | _ => true
  end.

(** ** The exported decorators, as data *)

(** One constructor per name the module docstring lists under "Exports
    the following", with the arguments of the call. *)
Inductive decorator_call : Type :=
| call_map (produces : pyval)
| call_filter
| call_reduce (produces : pyval)
| call_numargs_expected (num : pyval)
| call_python_list_expected
| call_python_dict_expected
| call_collects_output
| call_yields
| call_produces_python_list
| call_produces_tuples
| call_flowprocess_expected.

Definition decorator_of (c : decorator_call) : pyval → M pyval :=
  match c with
  | call_map produces => decorators.map produces
  | call_filter => decorators.filter
  | call_reduce produces => decorators.reduce produces
  | call_numargs_expected num => decorators.numargs_expected num
  | call_python_list_expected => decorators.python_list_expected
  | call_python_dict_expected => decorators.python_dict_expected
  | call_collects_output => decorators.collects_output
  | call_yields => decorators.yields
  | call_produces_python_list => decorators.produces_python_list
  | call_produces_tuples => decorators.produces_tuples
  | call_flowprocess_expected => decorators.flowprocess_expected
  end.

(** ** Where a decorator writes, and onto what *)

(** The object a decorator applied to [x] in state [σ] returns: [x] itself
    when it is a [DecoratedFunction], a newly allocated one otherwise. *)
Definition descriptor_loc (σ : world) (x : pyval) : loc :=
  match x with
  | PyRef l => l
  | _ => fresh (dom (heap σ))
  end.

(** The dict of that object when line 86 is reached. *)
Definition descriptor_before (σ : world) (x : pyval) : gmap string pyval :=
  match x with
  | PyRef l => default ∅ (heap σ !! l)
  | _ => default_decorators x
  end.

(** [ps] merged onto [d] by successive [update]s, first dict first. *)
Definition updates (d : gmap string pyval) (ps : list (gmap string pyval))
    : gmap string pyval :=
  foldl (λ acc p, p ∪ acc) d ps.

(** The dict literal each exported decorator passes to
    [_function_decorator]. *)
Definition parameters_of (c : decorator_call) : gmap string pyval :=
  match c with
  | call_map produces =>
      <[ "type" := PyStr "map" ]> {[ "produces" := produces ]}
  | call_filter => {[ "type" := PyStr "filter" ]}
  | call_reduce produces =>
      <[ "type" := PyStr "reduce" ]> {[ "produces" := produces ]}
  | call_numargs_expected num => {[ "numargs_expected" := num ]}
  | call_python_list_expected =>
      {[ "input_conversion" :=
           PyConvertInputTuples CascadingBaseOperationWrapper.PYTHON_LIST ]}
  | call_python_dict_expected =>
      {[ "input_conversion" :=
           PyConvertInputTuples CascadingBaseOperationWrapper.PYTHON_DICT ]}
  | call_collects_output =>
      {[ "output_method" :=
           PyOutputMethod CascadingRecordProducerWrapper.COLLECTS ]}
  | call_yields =>
      {[ "output_method" :=
           PyOutputMethod CascadingRecordProducerWrapper.YIELDS ]}
  | call_produces_python_list =>
      {[ "output_type" :=
           PyOutputType CascadingRecordProducerWrapper.PYTHON_LIST ]}
  | call_produces_tuples =>
      {[ "output_type" := PyOutputType CascadingRecordProducerWrapper.TUPLE ]}
  | call_flowprocess_expected =>
      {[ "flow_process_pass_in" :=
           PyFlowProcessPassIn CascadingRecordProducerWrapper.YES ]}
  end.

(** ** Two states to run the decorators in *)

(** A state with no decorated function yet, and one holding a function
    already decorated as a map that produces the fields a and b. *)
Definition empty_world : world := World ∅ [].

Definition map_ab : gmap string pyval :=
  <[ "type" := PyStr "map" ]>
    {[ "produces" := PyList [PyStr "a"; PyStr "b"] ]}
  ∪ default_decorators (PyFun 0).

Definition decorated_world : world := World {[ 7 := map_ab ]} [].

(** ** Sequences of exported decorators *)

(** Exported decorators applied one after the other, first first, as
    stacked [@decorator] lines apply them from the bottom up. *)
Fixpoint decorate_with (cs : list decorator_call) (x : pyval) : M pyval :=
  match cs with
  | [] => mret x
  | c :: cs' => y ← decorator_of c x; decorate_with cs' y
  end.

(** The 'type' an exported decorator writes, if it writes one. *)
Definition role_of (c : decorator_call) : option string :=
  match c with
  | call_map _ => Some "map"
  | call_filter => Some "filter"
  | call_reduce _ => Some "reduce"
  | _ => None
  end.

(** The 'type' written last by a sequence of exported decorators. *)
Fixpoint last_role (cs : list decorator_call) : option string :=
  match cs with
  | [] => None
  | c :: cs' =>
      match last_role cs' with
      | Some r => Some r
      | None => role_of c
      end
  end.

(** Does the decorator's dict literal have the key 'produces'? *)
Definition writes_produces (c : decorator_call) : bool :=
  match c with
  | call_map _ | call_reduce _ => true
  | _ => false
  end.

(** Does the decorator's dict literal have the key 'numargs_expected'? *)
Definition writes_numargs_expected (c : decorator_call) : bool :=
  match c with
  | call_numargs_expected _ => true
  | _ => false
  end.

(** The entries the consumer of a decorated function switches on hold
    values of the right kind: a known type name and members of the four
    Java enums. *)
Definition well_typed_decorators (d : gmap string pyval) : bool :=
  match d !! "type" with
  | Some (PyStr s) => bool_decide (s ∈ ["none"; "map"; "filter"; "reduce"])
  | _ => false
  end
  && match d !! "input_conversion" with
     | Some (PyConvertInputTuples _) => true
     | _ => false
     end
  && match d !! "output_method" with
     | Some (PyOutputMethod _) => true
     | _ => false
     end
  && match d !! "output_type" with
     | Some (PyOutputType _) => true
     | _ => false
     end
  && match d !! "flow_process_pass_in" with
     | Some (PyFlowProcessPassIn _) => true
     | _ => false
     end.

(** ** Basic facts about the store *)

Section store.

Implicit Types (σ : world) (l : loc) (d p q : gmap string pyval)
  (k : string) (v x : pyval) (e : event).

Lemma heap_set_heap_insert σ l d :
  heap (set_heap (insert l d) σ) !! l = Some d.
Proof. apply lookup_insert_eq. Qed.

Lemma set_heap_insert_twice σ l d d' :
  set_heap (insert l d') (set_heap (insert l d) σ) = set_heap (insert l d') σ.
Proof. unfold set_heap; simpl. by rewrite insert_insert_eq. Qed.

Lemma trace_set_heap f σ : trace (set_heap f σ) = trace σ.
Proof. reflexivity. Qed.

Lemma fresh_not_live σ : heap σ !! fresh (dom (heap σ)) = None.
Proof. apply not_elem_of_dom, is_fresh. Qed.

Lemma setitem_live σ l d k v :
  heap σ !! l = Some d →
  setitem (PyRef l) k v σ = Some ((), set_heap (insert l (<[k := v]> d)) σ).
Proof. intros H. unfold setitem, mbind, M_bind, get_decorators. by rewrite H. Qed.

Lemma update_live σ l d p :
  heap σ !! l = Some d →
  update (PyRef l) p σ = Some ((), set_heap (insert l (p ∪ d)) σ).
Proof. intros H. unfold update, mbind, M_bind, get_decorators. by rewrite H. Qed.

Lemma emit_trace e σ :
  emit e σ = Some ((), World (heap σ) (trace σ ++ [e])).
Proof. reflexivity. Qed.

End store.

(** ** What one decorator application does *)

Section one_application.

Implicit Types (σ : world) (l : loc) (d p q : gmap string pyval)
  (k : string) (v x f : pyval).

(** Chaining two statements when the first one is known to return. *)
Lemma bind_Some {A B} (m : M A) (c : A → M B) σ a σ' :
  m σ = Some (a, σ') → (m ≫= c) σ = c a σ'.
Proof. intros H. unfold mbind, M_bind. by rewrite H. Qed.

Lemma fun_decorator_dff_plain f σ :
  isinstance_DecoratedFunction f = false →
  decorators.fun_decorator_dff f σ =
    Some (PyRef (fresh (dom (heap σ))),
          set_heap (insert (fresh (dom (heap σ))) (default_decorators f)) σ).
Proof.
  intros Hf. unfold decorators.fun_decorator_dff. rewrite Hf.
  set (l := fresh (dom (heap σ))).
  erewrite bind_Some by reflexivity. fold l.
  repeat (erewrite bind_Some;
    [| apply setitem_live; apply heap_set_heap_insert];
    rewrite set_heap_insert_twice).
  reflexivity.
Qed.

Lemma fun_decorator_dff_ref l σ :
  decorators.fun_decorator_dff (PyRef l) σ = Some (PyRef l, σ).
Proof. reflexivity. Qed.

Lemma fun_decorator_plain p f σ :
  isinstance_DecoratedFunction f = false →
  decorators.fun_decorator p f σ =
    Some (PyRef (fresh (dom (heap σ))),
          set_heap (insert (fresh (dom (heap σ))) (p ∪ default_decorators f)) σ).
Proof.
  intros Hf. unfold decorators.fun_decorator.
  erewrite bind_Some by (by apply fun_decorator_dff_plain).
  erewrite bind_Some by (apply update_live, heap_set_heap_insert).
  by rewrite set_heap_insert_twice.
Qed.

Lemma fun_decorator_ref p l d σ :
  heap σ !! l = Some d →
  decorators.fun_decorator p (PyRef l) σ =
    Some (PyRef l, set_heap (insert l (p ∪ d)) σ).
Proof.
  intros Hl. unfold decorators.fun_decorator.
  erewrite bind_Some by apply fun_decorator_dff_ref.
  by erewrite bind_Some by (by apply update_live).
Qed.

End one_application.

Section applications.

Implicit Types (σ : world) (l : loc) (d p q : gmap string pyval)
  (ps : list (gmap string pyval)) (k : string) (v x f : pyval).

Lemma decorator_of_parameters c :
  decorator_of c = decorators._function_decorator (parameters_of c).
Proof. by destruct c. Qed.

Lemma live_descriptor_before σ x :
  live σ x = true →
  isinstance_DecoratedFunction x = true →
  heap σ !! descriptor_loc σ x = Some (descriptor_before σ x).
Proof.
  destruct x; try discriminate. simpl.
  by destruct (heap σ !! l).
Qed.

(** One application, for a plain callable and a decorated one alike. *)
Lemma fun_decorator_live p x σ :
  live σ x = true →
  decorators.fun_decorator p x σ =
    Some (PyRef (descriptor_loc σ x),
          set_heap (insert (descriptor_loc σ x) (p ∪ descriptor_before σ x)) σ).
Proof.
  intros Hx. destruct (isinstance_DecoratedFunction x) eqn:Hi.
  - pose proof (live_descriptor_before _ _ Hx Hi) as Hd.
    destruct x; try discriminate. by apply fun_decorator_ref.
  - rewrite fun_decorator_plain by done. by destruct x.
Qed.

Lemma set_heap_insert_id σ l d :
  heap σ !! l = Some d → set_heap (insert l d) σ = σ.
Proof.
  intros H. destruct σ as [h t]. unfold set_heap; simpl in *.
  by rewrite insert_id.
Qed.

Lemma decorate_all_ref ps l d σ :
  heap σ !! l = Some d →
  decorate_all ps (PyRef l) σ =
    Some (PyRef l, set_heap (insert l (updates d ps)) σ).
Proof.
  revert d σ. induction ps as [| p ps IH]; intros d σ Hl; simpl.
  - by rewrite set_heap_insert_id.
  - unfold decorators._function_decorator.
    erewrite bind_Some by (by apply fun_decorator_ref).
    rewrite (IH (p ∪ d)) by apply heap_set_heap_insert.
    by rewrite set_heap_insert_twice.
Qed.

Lemma decorate_all_plain p ps f σ :
  isinstance_DecoratedFunction f = false →
  decorate_all (p :: ps) f σ =
    Some (PyRef (fresh (dom (heap σ))),
          set_heap (insert (fresh (dom (heap σ)))
                      (updates (default_decorators f) (p :: ps))) σ).
Proof.
  intros Hf. simpl. unfold decorators._function_decorator.
  erewrite bind_Some by (by apply fun_decorator_plain).
  rewrite (decorate_all_ref ps _ (p ∪ default_decorators f))
    by apply heap_set_heap_insert.
  by rewrite set_heap_insert_twice.
Qed.

Lemma lookup_update p d k :
  (p ∪ d) !! k = match p !! k with Some v => Some v | None => d !! k end.
Proof.
  destruct (p !! k) as [v |] eqn:Hp.
  - by apply lookup_union_Some_l.
  - by rewrite lookup_union_r.
Qed.

Lemma lookup_updates ps d k :
  updates d ps !! k =
    match last_write ps k with Some v => Some v | None => d !! k end.
Proof.
  revert d. induction ps as [| p ps IH]; intros d; simpl; [done |].
  unfold updates in *. simpl. rewrite IH.
  destruct (last_write ps k); [done |]. apply lookup_update.
Qed.

End applications.

(** ** Properties of the decorator layer *)

(** C1.  Decorators with update dicts p1 ... pn (n at least one) applied
    in this order to a plain callable [f] return one new
    [DecoratedFunction] whose dict is the dicts merged in order onto the
    initial dict of [f]; under every key it holds the value of the last
    dict that has the key, and the initial value when none has it. *)
Theorem decorate_all_last_write_wins (f : pyval) (p : gmap string pyval)
    (ps : list (gmap string pyval)) (σ : world) :
  isinstance_DecoratedFunction f = false →
  decorate_all (p :: ps) f σ =
    Some (PyRef (fresh (dom (heap σ))),
          set_heap (insert (fresh (dom (heap σ)))
                      (updates (default_decorators f) (p :: ps))) σ)
  ∧ heap σ !! fresh (dom (heap σ)) = None
  ∧ ∀ k : string,
      updates (default_decorators f) (p :: ps) !! k =
        match last_write (p :: ps) k with
        | Some v => Some v
        | None => default_decorators f !! k
        end.
Proof.
  intros Hf. split; [by apply decorate_all_plain |].
  split; [apply fresh_not_live |]. intros k. apply lookup_updates.
Qed.

Lemma decorate_all_last_write_wins_witness :
  isinstance_DecoratedFunction (PyFun 0) = false
  ∧ updates (default_decorators (PyFun 0))
      [ {[ "type" := PyStr "filter" ]}; {[ "numargs_expected" := PyInt 2 ]};
        {[ "type" := PyStr "map" ]} ] !! "type" =
      match last_write
              [ {[ "type" := PyStr "filter" ]};
                {[ "numargs_expected" := PyInt 2 ]};
                {[ "type" := PyStr "map" ]} ] "type" with
      | Some v => Some v
      | None => default_decorators (PyFun 0) !! "type"
      end.
Proof.
  split; [reflexivity |].
  apply (decorate_all_last_write_wins (PyFun 0) _ _ empty_world).
  reflexivity.
Defined.

(** C2.  Applied to a plain callable [f], every exported decorator first
    builds a new [DecoratedFunction]; at the point where its own dict is
    about to be merged in, the new object holds type 'none', input
    conversion NONE, output method YIELDS_OR_RETURNS, output type AUTO,
    flow process pass-in NO, and neither a 'numargs_expected' nor a
    'produces' entry (reading either with [get] gives [None]). *)
Theorem fun_decorator_defaults (c : decorator_call) (f : pyval) (σ : world) :
  isinstance_DecoratedFunction f = false →
  decorators.fun_decorator_dff f σ =
    Some (PyRef (fresh (dom (heap σ))),
          set_heap (insert (fresh (dom (heap σ))) (default_decorators f)) σ)
  ∧ heap σ !! fresh (dom (heap σ)) = None
  ∧ decorator_of c f σ =
      (update (PyRef (fresh (dom (heap σ)))) (parameters_of c);;
       mret (PyRef (fresh (dom (heap σ)))))
        (set_heap (insert (fresh (dom (heap σ))) (default_decorators f)) σ)
  ∧ default_decorators f !! "type" = Some (PyStr "none")
  ∧ default_decorators f !! "input_conversion" =
      Some (PyConvertInputTuples CascadingBaseOperationWrapper.NONE)
  ∧ default_decorators f !! "output_method" =
      Some (PyOutputMethod CascadingRecordProducerWrapper.YIELDS_OR_RETURNS)
  ∧ default_decorators f !! "output_type" =
      Some (PyOutputType CascadingRecordProducerWrapper.AUTO)
  ∧ default_decorators f !! "flow_process_pass_in" =
      Some (PyFlowProcessPassIn CascadingRecordProducerWrapper.NO)
  ∧ default_decorators f !! "numargs_expected" = None
  ∧ dict_get (default_decorators f) "numargs_expected" = PyNone
  ∧ default_decorators f !! "produces" = None
  ∧ dict_get (default_decorators f) "produces" = PyNone.
Proof.
  intros Hf. split; [by apply fun_decorator_dff_plain |].
  split; [apply fresh_not_live |]. split; [| by repeat split].
  rewrite decorator_of_parameters.
  unfold decorators._function_decorator, decorators.fun_decorator.
  by erewrite bind_Some by (by apply fun_decorator_dff_plain).
Qed.

Lemma fun_decorator_defaults_witness :
  isinstance_DecoratedFunction (PyFun 0) = false
  ∧ decorators.fun_decorator_dff (PyFun 0) empty_world =
      Some (PyRef (fresh (dom (heap empty_world))),
            set_heap (insert (fresh (dom (heap empty_world)))
                        (default_decorators (PyFun 0))) empty_world).
Proof.
  split; [reflexivity |].
  apply (fun_decorator_defaults call_filter (PyFun 0) empty_world).
  reflexivity.
Defined.

(** C3.  A decorator applied to an existing [DecoratedFunction] returns
    that very object and allocates nothing; the object's dict is updated
    in the store, every key the decorator's dict lacks keeps its value,
    and no other object changes. *)
Theorem fun_decorator_in_place (p d : gmap string pyval) (l : loc) (σ : world) :
  heap σ !! l = Some d →
  decorators._function_decorator p (PyRef l) σ =
    Some (PyRef l, set_heap (insert l (p ∪ d)) σ)
  ∧ dom (heap (set_heap (insert l (p ∪ d)) σ)) = dom (heap σ)
  ∧ (∀ k : string, p !! k = None → (p ∪ d) !! k = d !! k)
  ∧ (∀ l' : loc, l' ≠ l →
       heap (set_heap (insert l (p ∪ d)) σ) !! l' = heap σ !! l').
Proof.
  intros Hl. split; [by apply fun_decorator_ref |]. split; [| split].
  - simpl. rewrite dom_insert_L.
    apply elem_of_dom_2 in Hl. apply subseteq_union_1_L.
    by apply singleton_subseteq_l.
  - intros k Hk. by rewrite lookup_update, Hk.
  - intros l' Hne. simpl. by rewrite lookup_insert_ne.
Qed.

Lemma fun_decorator_in_place_witness :
  heap decorated_world !! 7 = Some map_ab
  ∧ decorators._function_decorator {[ "type" := PyStr "filter" ]} (PyRef 7)
      decorated_world =
      Some (PyRef 7,
            set_heap (insert 7 ({[ "type" := PyStr "filter" ]} ∪ map_ab))
              decorated_world).
Proof.
  split; [reflexivity |].
  apply (fun_decorator_in_place _ map_ab 7 decorated_world). reflexivity.
Defined.

(** C4.  [python_list_expected()] and then [python_dict_expected()],
    applied to a plain callable or to a decorated function, leave
    PYTHON_DICT under 'input_conversion'. *)
Theorem list_then_dict_expected (x : pyval) (σ : world) :
  live σ x = true →
  ∃ (σ' : world) (d : gmap string pyval),
    (decorators.python_list_expected x ≫= decorators.python_dict_expected) σ =
      Some (PyRef (descriptor_loc σ x), σ')
    ∧ heap σ' !! descriptor_loc σ x = Some d
    ∧ d !! "input_conversion" =
        Some (PyConvertInputTuples CascadingBaseOperationWrapper.PYTHON_DICT).
Proof.
  intros Hx. eexists _, _. split; [| split].
  - unfold decorators.python_list_expected, decorators.python_dict_expected,
      decorators._function_decorator.
    erewrite bind_Some by (by apply fun_decorator_live).
    erewrite fun_decorator_ref by apply heap_set_heap_insert.
    by rewrite set_heap_insert_twice.
  - apply heap_set_heap_insert.
  - by rewrite lookup_update.
Qed.

Lemma list_then_dict_expected_witness :
  live decorated_world (PyRef 7) = true
  ∧ ∃ (σ' : world) (d : gmap string pyval),
      (decorators.python_list_expected (PyRef 7)
         ≫= decorators.python_dict_expected) decorated_world =
        Some (PyRef (descriptor_loc decorated_world (PyRef 7)), σ')
      ∧ heap σ' !! descriptor_loc decorated_world (PyRef 7) = Some d
      ∧ d !! "input_conversion" =
          Some (PyConvertInputTuples CascadingBaseOperationWrapper.PYTHON_DICT).
Proof.
  split; [reflexivity |].
  apply (list_then_dict_expected (PyRef 7) decorated_world). reflexivity.
Defined.

(** C5.  Every exported decorator, whatever its argument, applied to a
    plain callable or to a decorated function returns a
    [DecoratedFunction] and raises nothing; the entries of its dict are
    stored as given.  In particular [numargs_expected(n)] stores [n] for
    every integer [n], negative ones included. *)
Theorem decorators_never_raise (c : decorator_call) (x : pyval) (σ : world) :
  live σ x = true →
  decorator_of c x σ =
    Some (PyRef (descriptor_loc σ x),
          set_heap (insert (descriptor_loc σ x)
                      (parameters_of c ∪ descriptor_before σ x)) σ)
  ∧ (∀ (k : string) (v : pyval),
       parameters_of c !! k = Some v →
       (parameters_of c ∪ descriptor_before σ x) !! k = Some v)
  ∧ ∀ n : Z,
      decorators.numargs_expected (PyInt n) x σ =
        Some (PyRef (descriptor_loc σ x),
              set_heap (insert (descriptor_loc σ x)
                          ({[ "numargs_expected" := PyInt n ]}
                             ∪ descriptor_before σ x)) σ)
      ∧ ({[ "numargs_expected" := PyInt n ]} ∪ descriptor_before σ x)
          !! "numargs_expected" = Some (PyInt n).
Proof.
  intros Hx. split; [| split].
  - rewrite decorator_of_parameters. by apply fun_decorator_live.
  - intros k v Hk. by apply lookup_union_Some_l.
  - intros n. split.
    + by apply fun_decorator_live.
    + by apply lookup_union_Some_l.
Qed.

Lemma decorators_never_raise_witness :
  live empty_world (PyFun 0) = true
  ∧ decorators.numargs_expected (PyInt (-3)) (PyFun 0) empty_world =
      Some (PyRef (descriptor_loc empty_world (PyFun 0)),
            set_heap (insert (descriptor_loc empty_world (PyFun 0))
                        ({[ "numargs_expected" := PyInt (-3) ]}
                           ∪ descriptor_before empty_world (PyFun 0)))
              empty_world).
Proof.
  split; [reflexivity |].
  apply (decorators_never_raise (call_numargs_expected (PyInt (-3)))
           (PyFun 0) empty_world).
  reflexivity.
Defined.

Section sequences.

Implicit Types (σ : world) (l : loc) (d p q : gmap string pyval)
  (ps : list (gmap string pyval)) (k : string) (v x f g : pyval).

Lemma decorate_all_live p ps x σ :
  live σ x = true →
  decorate_all (p :: ps) x σ =
    Some (PyRef (descriptor_loc σ x),
          set_heap (insert (descriptor_loc σ x)
                      (updates (descriptor_before σ x) (p :: ps))) σ).
Proof.
  intros Hx. simpl. unfold decorators._function_decorator.
  erewrite bind_Some by (by apply fun_decorator_live).
  rewrite (decorate_all_ref ps _ (p ∪ descriptor_before σ x))
    by apply heap_set_heap_insert.
  by rewrite set_heap_insert_twice.
Qed.

(** Outside the 'function' entry the initial dict is the same for every
    plain callable. *)
Lemma default_decorators_other f g k :
  k ≠ "function" → default_decorators f !! k = default_decorators g !! k.
Proof.
  intros Hk.
  rewrite <- (lookup_delete_ne (default_decorators f) "function" k) by done.
  by rewrite <- (lookup_delete_ne (default_decorators g) "function" k).
Qed.

Lemma update_twice p d : p ∪ (p ∪ d) = p ∪ d.
Proof. by rewrite (assoc_L (∪)), (idemp_L (∪)). Qed.

Lemma update_swap p q d : dom p ## dom q → q ∪ (p ∪ d) = p ∪ (q ∪ d).
Proof.
  intros H%map_disjoint_dom. rewrite !(assoc_L (∪)).
  by rewrite (map_union_comm q p).
Qed.

End sequences.

(** C6.  Decorating runs nothing of the callable.  For plain callables
    [f] and [g] and decorators with update dicts p1 ... pn: both runs
    return, the trace of calls and inspections is what it was, no object
    but the new one changes, the two resulting dicts agree on every key
    but 'function', and 'function' holds [f] itself unless one of the
    dicts writes that key. *)
Theorem decorating_never_runs_callable (f g : pyval) (p : gmap string pyval)
    (ps : list (gmap string pyval)) (σ : world) :
  isinstance_DecoratedFunction f = false →
  isinstance_DecoratedFunction g = false →
  ∃ (σf σg : world) (df dg : gmap string pyval),
    decorate_all (p :: ps) f σ = Some (PyRef (fresh (dom (heap σ))), σf)
    ∧ decorate_all (p :: ps) g σ = Some (PyRef (fresh (dom (heap σ))), σg)
    ∧ trace σf = trace σ
    ∧ (∀ l' : loc, l' ≠ fresh (dom (heap σ)) → heap σf !! l' = heap σ !! l')
    ∧ heap σf !! fresh (dom (heap σ)) = Some df
    ∧ heap σg !! fresh (dom (heap σ)) = Some dg
    ∧ (∀ k : string, k ≠ "function" → df !! k = dg !! k)
    ∧ (last_write (p :: ps) "function" = None → df !! "function" = Some f)
    ∧ ∀ x : pyval,
        live σ x = true →
        ∃ σx : world,
          decorate_all (p :: ps) x σ = Some (PyRef (descriptor_loc σ x), σx)
          ∧ trace σx = trace σ.
Proof.
  intros Hf Hg. eexists _, _, _, _.
  split; [by apply decorate_all_plain |].
  split; [by apply decorate_all_plain |].
  split; [reflexivity |].
  split; [intros l' Hne; simpl; by rewrite lookup_insert_ne |].
  split; [apply heap_set_heap_insert |].
  split; [apply heap_set_heap_insert |]. split.
  - intros k Hk. rewrite !lookup_updates.
    destruct (last_write (p :: ps) k); [done |].
    by apply default_decorators_other.
  - split; [intros Hw; by rewrite lookup_updates, Hw |].
    intros x Hx. eexists. split; [by apply decorate_all_live |].
    apply trace_set_heap.
Qed.

Lemma decorating_never_runs_callable_witness :
  isinstance_DecoratedFunction (PyFun 0) = false
  ∧ isinstance_DecoratedFunction (PyFun 1) = false
  ∧ ∃ (σf σg : world) (df dg : gmap string pyval),
      decorate_all [ {[ "type" := PyStr "filter" ]} ] (PyFun 0) empty_world =
        Some (PyRef (fresh (dom (heap empty_world))), σf)
      ∧ decorate_all [ {[ "type" := PyStr "filter" ]} ] (PyFun 1) empty_world =
          Some (PyRef (fresh (dom (heap empty_world))), σg)
      ∧ trace σf = trace empty_world
      ∧ (∀ l' : loc, l' ≠ fresh (dom (heap empty_world)) →
           heap σf !! l' = heap empty_world !! l')
      ∧ heap σf !! fresh (dom (heap empty_world)) = Some df
      ∧ heap σg !! fresh (dom (heap empty_world)) = Some dg
      ∧ (∀ k : string, k ≠ "function" → df !! k = dg !! k)
      ∧ (last_write [ {[ "type" := PyStr "filter" ]} ] "function" = None →
         df !! "function" = Some (PyFun 0))
      ∧ ∀ x : pyval,
          live empty_world x = true →
          ∃ σx : world,
            decorate_all [ {[ "type" := PyStr "filter" ]} ] x empty_world =
              Some (PyRef (descriptor_loc empty_world x), σx)
            ∧ trace σx = trace empty_world.
Proof.
  split; [reflexivity |]. split; [reflexivity |].
  exact (decorating_never_runs_callable (PyFun 0) (PyFun 1)
           {[ "type" := PyStr "filter" ]} [] empty_world eq_refl eq_refl).
Defined.

(** C7.  Applying the decorator of one update dict twice in a row gives
    the result and the state that applying it once gives. *)
Theorem fun_decorator_idempotent (p : gmap string pyval) (x : pyval) (σ : world) :
  live σ x = true →
  (decorators._function_decorator p x ≫= decorators._function_decorator p) σ =
    decorators._function_decorator p x σ
  ∧ decorators._function_decorator p x σ =
      Some (PyRef (descriptor_loc σ x),
            set_heap (insert (descriptor_loc σ x) (p ∪ descriptor_before σ x)) σ).
Proof.
  intros Hx. unfold decorators._function_decorator.
  rewrite (fun_decorator_live p x σ Hx). split; [| done].
  erewrite bind_Some by (by apply fun_decorator_live).
  erewrite fun_decorator_ref by apply heap_set_heap_insert.
  by rewrite set_heap_insert_twice, update_twice.
Qed.

Lemma fun_decorator_idempotent_witness :
  live empty_world (PyFun 0) = true
  ∧ (decorators._function_decorator {[ "type" := PyStr "filter" ]} (PyFun 0)
       ≫= decorators._function_decorator {[ "type" := PyStr "filter" ]})
      empty_world =
      decorators._function_decorator {[ "type" := PyStr "filter" ]} (PyFun 0)
        empty_world.
Proof.
  split; [reflexivity |].
  exact (proj1 (fun_decorator_idempotent {[ "type" := PyStr "filter" ]}
                  (PyFun 0) empty_world eq_refl)).
Defined.

(** C8.  Two decorators whose update dicts share no key give the same
    result and the same state in either order, on a decorated function
    and on a plain callable alike. *)
Theorem disjoint_decorators_commute (p q : gmap string pyval) (x : pyval)
    (σ : world) :
  dom p ## dom q →
  live σ x = true →
  (decorators._function_decorator p x ≫= decorators._function_decorator q) σ =
    (decorators._function_decorator q x ≫= decorators._function_decorator p) σ
  ∧ (decorators._function_decorator p x ≫= decorators._function_decorator q) σ =
      Some (PyRef (descriptor_loc σ x),
            set_heap (insert (descriptor_loc σ x)
                        (q ∪ (p ∪ descriptor_before σ x))) σ).
Proof.
  intros Hpq Hx. unfold decorators._function_decorator.
  assert (∀ p q,
    (decorators.fun_decorator p x ≫= decorators.fun_decorator q) σ =
      Some (PyRef (descriptor_loc σ x),
            set_heap (insert (descriptor_loc σ x)
                        (q ∪ (p ∪ descriptor_before σ x))) σ)) as Hrun.
  { intros p' q'.
    erewrite bind_Some by (by apply fun_decorator_live).
    erewrite fun_decorator_ref by apply heap_set_heap_insert.
    by rewrite set_heap_insert_twice. }
  split; [| apply Hrun]. rewrite !Hrun. by rewrite (update_swap p q).
Qed.

Lemma disjoint_decorators_commute_witness :
  live decorated_world (PyRef 7) = true
  ∧ (decorators._function_decorator {[ "type" := PyStr "filter" ]} (PyRef 7)
       ≫= decorators._function_decorator {[ "numargs_expected" := PyInt 2 ]})
      decorated_world =
    (decorators._function_decorator {[ "numargs_expected" := PyInt 2 ]} (PyRef 7)
       ≫= decorators._function_decorator {[ "type" := PyStr "filter" ]})
      decorated_world.
Proof.
  split; [reflexivity |].
  refine (proj1 (disjoint_decorators_commute {[ "type" := PyStr "filter" ]}
                   {[ "numargs_expected" := PyInt 2 ]} (PyRef 7)
                   decorated_world _ eq_refl)).
  rewrite !dom_singleton_L. apply disjoint_singleton_l.
  rewrite elem_of_singleton. discriminate.
Defined.

(** C9.  [map(['a', 'b'])] and then [numargs_expected(2)] on a plain
    function [f] give a decorated function of type 'map' that produces
    ['a', 'b'], expects 2 fields, and holds [f] itself under 'function'. *)
Theorem map_then_numargs_expected (f : pyval) (σ : world) :
  isinstance_DecoratedFunction f = false →
  ∃ (σ' : world) (d : gmap string pyval),
    (decorators.map (PyList [PyStr "a"; PyStr "b"]) f
       ≫= decorators.numargs_expected (PyInt 2)) σ =
      Some (PyRef (fresh (dom (heap σ))), σ')
    ∧ heap σ !! fresh (dom (heap σ)) = None
    ∧ heap σ' !! fresh (dom (heap σ)) = Some d
    ∧ d !! "type" = Some (PyStr "map")
    ∧ d !! "produces" = Some (PyList [PyStr "a"; PyStr "b"])
    ∧ d !! "numargs_expected" = Some (PyInt 2)
    ∧ d !! "function" = Some f.
Proof.
  intros Hf. eexists _, _. split; [| split; [apply fresh_not_live | split]].
  - unfold decorators.map, decorators.numargs_expected,
      decorators._function_decorator.
    erewrite bind_Some by (by apply fun_decorator_plain).
    erewrite fun_decorator_ref by apply heap_set_heap_insert.
    by rewrite set_heap_insert_twice.
  - apply heap_set_heap_insert.
  - by rewrite !lookup_update.
Qed.

Lemma map_then_numargs_expected_witness :
  isinstance_DecoratedFunction (PyFun 0) = false
  ∧ ∃ (σ' : world) (d : gmap string pyval),
      (decorators.map (PyList [PyStr "a"; PyStr "b"]) (PyFun 0)
         ≫= decorators.numargs_expected (PyInt 2)) empty_world =
        Some (PyRef (fresh (dom (heap empty_world))), σ')
      ∧ heap empty_world !! fresh (dom (heap empty_world)) = None
      ∧ heap σ' !! fresh (dom (heap empty_world)) = Some d
      ∧ d !! "type" = Some (PyStr "map")
      ∧ d !! "produces" = Some (PyList [PyStr "a"; PyStr "b"])
      ∧ d !! "numargs_expected" = Some (PyInt 2)
      ∧ d !! "function" = Some (PyFun 0).
Proof.
  split; [reflexivity |].
  exact (map_then_numargs_expected (PyFun 0) empty_world eq_refl).
Defined.

(** C10.  On a decorated function that has a 'produces' entry, [map] and
    [reduce] always write 'produces' (with [None] when called without an
    argument, so the old entry is lost), while [filter] writes 'type' only
    and the 'produces' entry stays. *)
Theorem map_reduce_overwrite_produces (l : loc) (d : gmap string pyval)
    (v produces : pyval) (σ : world) :
  heap σ !! l = Some d →
  d !! "produces" = Some v →
  decorators.map produces (PyRef l) σ =
    Some (PyRef l,
          set_heap (insert l (parameters_of (call_map produces) ∪ d)) σ)
  ∧ (parameters_of (call_map produces) ∪ d) !! "produces" = Some produces
  ∧ (parameters_of (call_map PyNone) ∪ d) !! "produces" = Some PyNone
  ∧ decorators.reduce produces (PyRef l) σ =
      Some (PyRef l,
            set_heap (insert l (parameters_of (call_reduce produces) ∪ d)) σ)
  ∧ (parameters_of (call_reduce produces) ∪ d) !! "produces" = Some produces
  ∧ (parameters_of (call_reduce PyNone) ∪ d) !! "produces" = Some PyNone
  ∧ decorators.filter (PyRef l) σ =
      Some (PyRef l, set_heap (insert l (parameters_of call_filter ∪ d)) σ)
  ∧ (parameters_of call_filter ∪ d) !! "produces" = Some v
  ∧ (parameters_of call_filter ∪ d) !! "type" = Some (PyStr "filter")
  ∧ ∀ k : string,
      k ≠ "type" → (parameters_of call_filter ∪ d) !! k = d !! k.
Proof.
  intros Hl Hv.
  split; [by apply fun_decorator_ref |].
  split; [by rewrite lookup_update |].
  split; [by rewrite lookup_update |].
  split; [by apply fun_decorator_ref |].
  split; [by rewrite lookup_update |].
  split; [by rewrite lookup_update |].
  split; [by apply fun_decorator_ref |].
  split; [by rewrite lookup_update |].
  split; [by rewrite lookup_update |].
  intros k Hk. rewrite lookup_update. simpl.
  by rewrite lookup_singleton_ne.
Qed.

Lemma map_reduce_overwrite_produces_witness :
  heap decorated_world !! 7 = Some map_ab
  ∧ map_ab !! "produces" = Some (PyList [PyStr "a"; PyStr "b"])
  ∧ decorators.map PyNone (PyRef 7) decorated_world =
      Some (PyRef 7,
            set_heap (insert 7 (parameters_of (call_map PyNone) ∪ map_ab))
              decorated_world).
Proof.
  split; [reflexivity |]. split; [reflexivity |].
  exact (proj1 (map_reduce_overwrite_produces 7 map_ab
                  (PyList [PyStr "a"; PyStr "b"]) PyNone decorated_world
                  eq_refl eq_refl)).
Defined.

(** ** Further properties: composition of decorators *)

Section composition.

Implicit Types (σ : world) (l : loc) (d p q : gmap string pyval)
  (ps : list (gmap string pyval)) (k : string) (v w x f g : pyval)
  (c : decorator_call) (cs : list decorator_call).

Lemma two_decorators_live p q x σ :
  live σ x = true →
  (decorators._function_decorator p x ≫= decorators._function_decorator q) σ =
    Some (PyRef (descriptor_loc σ x),
          set_heap (insert (descriptor_loc σ x)
                      (q ∪ (p ∪ descriptor_before σ x))) σ).
Proof.
  intros Hx. unfold decorators._function_decorator.
  erewrite bind_Some by (by apply fun_decorator_live).
  erewrite fun_decorator_ref by apply heap_set_heap_insert.
  by rewrite set_heap_insert_twice.
Qed.

Lemma update_agree p q d :
  q ∪ (p ∪ d) = p ∪ (q ∪ d) ↔
  ∀ k v w, p !! k = Some v → q !! k = Some w → v = w.
Proof.
  split.
  - intros H k v w Hp Hq. apply (f_equal (.!! k)) in H.
    rewrite !lookup_update, Hp, Hq in H. by injection H.
  - intros H. apply map_eq. intros k. rewrite !lookup_update.
    destruct (p !! k) as [v |] eqn:Hp, (q !! k) as [w |] eqn:Hq; try done.
    f_equal. symmetry. by apply (H k).
Qed.

Lemma update_absorb p q d : dom p ⊆ dom q → q ∪ (p ∪ d) = q ∪ d.
Proof.
  intros H. apply map_eq. intros k. rewrite !lookup_update.
  destruct (q !! k) as [w |] eqn:Hq; [done |].
  apply not_elem_of_dom in Hq.
  assert (p !! k = None) as -> by (apply not_elem_of_dom; set_solver).
  done.
Qed.

Lemma updates_union p d ps : updates (p ∪ d) ps = updates p ps ∪ d.
Proof.
  revert p. induction ps as [| q ps IH]; intros p; [done |].
  unfold updates in *. simpl. by rewrite (assoc_L (∪)), IH.
Qed.

Lemma decorate_with_all cs x σ :
  decorate_with cs x σ = decorate_all (parameters_of <$> cs) x σ.
Proof.
  revert x σ. induction cs as [| c cs IH]; intros x σ; [done |].
  simpl. rewrite decorator_of_parameters. unfold mbind, M_bind.
  destruct (decorators._function_decorator _ x σ) as [[y σ'] |]; [| done].
  apply IH.
Qed.

Lemma decorate_with_plain c cs f σ :
  isinstance_DecoratedFunction f = false →
  decorate_with (c :: cs) f σ =
    Some (PyRef (fresh (dom (heap σ))),
          set_heap (insert (fresh (dom (heap σ)))
                      (updates (default_decorators f)
                         (parameters_of <$> c :: cs))) σ).
Proof.
  intros Hf. rewrite decorate_with_all. by apply decorate_all_plain.
Qed.

Lemma parameters_of_type c : parameters_of c !! "type" = PyStr <$> role_of c.
Proof. by destruct c. Qed.

Lemma last_write_type cs :
  last_write (parameters_of <$> cs) "type" = PyStr <$> last_role cs.
Proof.
  induction cs as [| c cs IH]; [done |].
  rewrite fmap_cons. cbn [last_write last_role]. rewrite IH.
  destruct (last_role cs); [done |]. apply parameters_of_type.
Qed.

Lemma last_write_produces cs :
  is_Some (last_write (parameters_of <$> cs) "produces") ↔
  existsb writes_produces cs = true.
Proof.
  induction cs as [| c cs IH].
  - split; [intros [? ?]; done | done].
  - rewrite fmap_cons. cbn [last_write existsb].
    rewrite orb_true_iff, <- IH.
    destruct (last_write (parameters_of <$> cs) "produces") as [v |].
    + split; eauto.
    + destruct c; split; try (by eauto);
        intros [H | [? H]]; done || by eexists.
Qed.

Lemma last_write_numargs_expected cs :
  is_Some (last_write (parameters_of <$> cs) "numargs_expected") ↔
  existsb writes_numargs_expected cs = true.
Proof.
  induction cs as [| c cs IH].
  - split; [intros [? ?]; done | done].
  - rewrite fmap_cons. cbn [last_write existsb].
    rewrite orb_true_iff, <- IH.
    destruct (last_write (parameters_of <$> cs) "numargs_expected") as [v |].
    + split; eauto.
    + destruct c; split; try (by eauto);
        intros [H | [? H]]; done || by eexists.
Qed.

(** No exported decorator writes a key outside these ten. *)
Lemma parameters_of_keys c k :
  is_Some (parameters_of c !! k) →
  k ∈ ["type"; "produces"; "numargs_expected"; "input_conversion";
       "output_method"; "output_type"; "flow_process_pass_in"].
Proof.
  intros [v Hv]. destruct c; simpl in Hv;
    repeat (first
      [ apply lookup_singleton_Some in Hv as [<- _]
      | apply lookup_insert_Some in Hv as [[<- _] | [_ Hv]] ]);
    set_solver.
Qed.

Lemma last_write_keys cs k :
  is_Some (last_write (parameters_of <$> cs) k) →
  k ∈ ["type"; "produces"; "numargs_expected"; "input_conversion";
       "output_method"; "output_type"; "flow_process_pass_in"].
Proof.
  induction cs as [| c cs IH]; [intros [? ?]; done |].
  rewrite fmap_cons. cbn [last_write].
  destruct (last_write (parameters_of <$> cs) k); [auto |].
  apply parameters_of_keys.
Qed.

Lemma well_typed_update c d :
  well_typed_decorators d = true →
  well_typed_decorators (parameters_of c ∪ d) = true.
Proof.
  unfold well_typed_decorators. intros H. rewrite !lookup_update.
  rewrite !andb_true_iff in *.
  destruct c;
    repeat match goal with
    | |- context [parameters_of ?c' !! ?k'] =>
        let t := eval vm_compute in (parameters_of c' !! k') in
        change (parameters_of c' !! k') with t
    end;
    cbv beta iota; intuition.
Qed.

Lemma well_typed_updates cs d :
  well_typed_decorators d = true →
  well_typed_decorators (updates d (parameters_of <$> cs)) = true.
Proof.
  revert d. induction cs as [| c cs IH]; intros d H; [done |].
  apply (IH (parameters_of c ∪ d)). by apply well_typed_update.
Qed.

End composition.

Section exported_sequences.

Implicit Types (σ : world) (l : loc) (d p q : gmap string pyval)
  (k : string) (v x f : pyval) (c : decorator_call)
  (cs : list decorator_call).

Lemma decorate_with_live c cs x σ :
  live σ x = true →
  decorate_with (c :: cs) x σ =
    Some (PyRef (descriptor_loc σ x),
          set_heap (insert (descriptor_loc σ x)
                      (updates (descriptor_before σ x)
                         (parameters_of <$> c :: cs))) σ).
Proof.
  intros Hx. rewrite decorate_with_all. by apply decorate_all_live.
Qed.

Lemma updates_untouched cs d k :
  k ∉ ["type"; "produces"; "numargs_expected"; "input_conversion";
       "output_method"; "output_type"; "flow_process_pass_in"] →
  updates d (parameters_of <$> cs) !! k = d !! k.
Proof.
  intros Hk. rewrite lookup_updates.
  destruct (last_write (parameters_of <$> cs) k) as [v |] eqn:Hw; [| done].
  destruct Hk. apply (last_write_keys cs). by rewrite Hw.
Qed.

Lemma last_role_not_none cs r : last_role cs = Some r → r ≠ "none".
Proof.
  induction cs as [| c cs IH]; [done |]. cbn [last_role].
  destruct (last_role cs); [auto |]. by destruct c; intros [= <-].
Qed.

Lemma live_set_heap_insert σ l d x :
  live σ x = true → live (set_heap (insert l d) σ) x = true.
Proof.
  destruct x; try done. simpl.
  destruct (decide (l = l0)) as [-> | Hne].
  - by rewrite lookup_insert_eq.
  - by rewrite lookup_insert_ne.
Qed.

End exported_sequences.

(** X1.  Decorating plain callables in two separate applications gives
    two different objects, also when the same function is decorated both
    times; the second application leaves the first object as it was. *)
Theorem separate_applications_separate_objects (f g : pyval)
    (p q : gmap string pyval) (σ : world) :
  isinstance_DecoratedFunction f = false →
  isinstance_DecoratedFunction g = false →
  ∃ (l1 l2 : loc) (σ1 σ2 : world),
    decorators._function_decorator p f σ = Some (PyRef l1, σ1)
    ∧ decorators._function_decorator q g σ1 = Some (PyRef l2, σ2)
    ∧ l1 ≠ l2
    ∧ heap σ !! l1 = None
    ∧ heap σ1 !! l2 = None
    ∧ heap σ2 !! l1 = Some (p ∪ default_decorators f)
    ∧ heap σ2 !! l2 = Some (q ∪ default_decorators g).
Proof.
  intros Hf Hg. unfold decorators._function_decorator.
  eexists _, _, _, _. split; [by apply fun_decorator_plain |].
  split; [by apply fun_decorator_plain |].
  set (l1 := fresh (dom (heap σ))).
  set (σ1 := set_heap (insert l1 (p ∪ default_decorators f)) σ).
  assert (l1 ≠ fresh (dom (heap σ1))) as Hne.
  { intros Heq. apply (is_fresh (dom (heap σ1))). rewrite <- Heq.
    apply elem_of_dom. unfold σ1. rewrite heap_set_heap_insert. eauto. }
  split; [done |]. split; [apply fresh_not_live |].
  split; [apply fresh_not_live |]. split.
  - simpl. rewrite lookup_insert_ne by done. apply lookup_insert_eq.
  - apply heap_set_heap_insert.
Qed.

Lemma separate_applications_separate_objects_witness :
  isinstance_DecoratedFunction (PyFun 0) = false
  ∧ ∃ (l1 l2 : loc) (σ1 σ2 : world),
      decorators._function_decorator {[ "type" := PyStr "filter" ]}
        (PyFun 0) empty_world = Some (PyRef l1, σ1)
      ∧ decorators._function_decorator {[ "type" := PyStr "map" ]}
          (PyFun 0) σ1 = Some (PyRef l2, σ2)
      ∧ l1 ≠ l2
      ∧ heap empty_world !! l1 = None
      ∧ heap σ1 !! l2 = None
      ∧ heap σ2 !! l1 =
          Some ({[ "type" := PyStr "filter" ]} ∪ default_decorators (PyFun 0))
      ∧ heap σ2 !! l2 =
          Some ({[ "type" := PyStr "map" ]} ∪ default_decorators (PyFun 0)).
Proof.
  split; [reflexivity |].
  exact (separate_applications_separate_objects (PyFun 0) (PyFun 0)
           {[ "type" := PyStr "filter" ]} {[ "type" := PyStr "map" ]}
           empty_world eq_refl eq_refl).
Defined.

(** X2.  Two decorators give the same result in either order exactly
    when their update dicts give the same value to every key they
    share. *)
Theorem decorators_commute_iff_agree (p q : gmap string pyval) (x : pyval)
    (σ : world) :
  live σ x = true →
  (decorators._function_decorator p x ≫= decorators._function_decorator q) σ =
    (decorators._function_decorator q x ≫= decorators._function_decorator p) σ
  ↔ ∀ (k : string) (v w : pyval), p !! k = Some v → q !! k = Some w → v = w.
Proof.
  intros Hx. rewrite !two_decorators_live by done.
  rewrite <- update_agree. split.
  - intros [= H]. apply (f_equal (.!! descriptor_loc σ x)) in H.
    rewrite !lookup_insert_eq in H. by injection H.
  - by intros ->.
Qed.

Lemma decorators_commute_iff_agree_witness :
  live empty_world (PyFun 0) = true
  ∧ ((decorators._function_decorator {[ "type" := PyStr "filter" ]} (PyFun 0)
        ≫= decorators._function_decorator {[ "type" := PyStr "map" ]})
       empty_world =
     (decorators._function_decorator {[ "type" := PyStr "map" ]} (PyFun 0)
        ≫= decorators._function_decorator {[ "type" := PyStr "filter" ]})
       empty_world
     ↔ ∀ (k : string) (v w : pyval),
         ({[ "type" := PyStr "filter" ]} : gmap string pyval) !! k = Some v →
         ({[ "type" := PyStr "map" ]} : gmap string pyval) !! k = Some w →
         v = w).
Proof.
  split; [reflexivity |].
  exact (decorators_commute_iff_agree {[ "type" := PyStr "filter" ]}
           {[ "type" := PyStr "map" ]} (PyFun 0) empty_world eq_refl).
Defined.

(** X3.  A decorator whose update dict has every key of the one applied
    just before it wipes that one out: the two together give what the
    later one gives alone. *)
Theorem later_decorator_absorbs (p q : gmap string pyval) (x : pyval)
    (σ : world) :
  dom p ⊆ dom q →
  live σ x = true →
  (decorators._function_decorator p x ≫= decorators._function_decorator q) σ =
    decorators._function_decorator q x σ.
Proof.
  intros Hpq Hx. rewrite two_decorators_live by done.
  unfold decorators._function_decorator.
  rewrite fun_decorator_live by done. by rewrite update_absorb.
Qed.

Lemma later_decorator_absorbs_witness :
  live empty_world (PyFun 0) = true
  ∧ (decorators.filter (PyFun 0) ≫= decorators.map PyNone) empty_world =
      decorators.map PyNone (PyFun 0) empty_world.
Proof.
  split; [reflexivity |].
  refine (later_decorator_absorbs {[ "type" := PyStr "filter" ]}
            (<[ "type" := PyStr "map" ]> {[ "produces" := PyNone ]})
            (PyFun 0) empty_world _ eq_refl).
  rewrite dom_insert_L, !dom_singleton_L. apply union_subseteq_l.
Defined.

(** X4.  A stack of decorators acts as the one decorator whose update
    dict is the stack's dicts merged in order of application. *)
Theorem stacked_decorators_fuse (p : gmap string pyval)
    (ps : list (gmap string pyval)) (x : pyval) (σ : world) :
  live σ x = true →
  decorate_all (p :: ps) x σ =
    decorators._function_decorator (updates p ps) x σ.
Proof.
  intros Hx. rewrite decorate_all_live by done.
  unfold decorators._function_decorator.
  rewrite fun_decorator_live by done.
  change (updates (descriptor_before σ x) (p :: ps))
    with (updates (p ∪ descriptor_before σ x) ps).
  by rewrite updates_union.
Qed.

Lemma stacked_decorators_fuse_witness :
  live decorated_world (PyRef 7) = true
  ∧ decorate_all
      [ {[ "type" := PyStr "filter" ]}; {[ "numargs_expected" := PyInt 2 ]} ]
      (PyRef 7) decorated_world =
    decorators._function_decorator
      (updates {[ "type" := PyStr "filter" ]}
         [ {[ "numargs_expected" := PyInt 2 ]} ])
      (PyRef 7) decorated_world.
Proof.
  split; [reflexivity |].
  exact (stacked_decorators_fuse {[ "type" := PyStr "filter" ]}
           [ {[ "numargs_expected" := PyInt 2 ]} ] (PyRef 7) decorated_world
           eq_refl).
Defined.

(** X5.  No exported decorator writes 'function', 'args' or 'kwargs':
    after any stack of them every key outside the seven they write reads
    as before, and on a plain callable [x] the object still holds [x]
    under 'function' and [None] under 'args' and 'kwargs'. *)
Theorem exported_decorators_keep_function (c : decorator_call)
    (cs : list decorator_call) (x : pyval) (σ : world) :
  live σ x = true →
  ∃ (σ' : world) (d : gmap string pyval),
    decorate_with (c :: cs) x σ = Some (PyRef (descriptor_loc σ x), σ')
    ∧ heap σ' !! descriptor_loc σ x = Some d
    ∧ (∀ k : string,
         k ∉ ["type"; "produces"; "numargs_expected"; "input_conversion";
              "output_method"; "output_type"; "flow_process_pass_in"] →
         d !! k = descriptor_before σ x !! k)
    ∧ (isinstance_DecoratedFunction x = false →
       d !! "function" = Some x
       ∧ d !! "args" = Some PyNone
       ∧ d !! "kwargs" = Some PyNone).
Proof.
  intros Hx. eexists _, _. split; [by apply decorate_with_live |].
  split; [apply heap_set_heap_insert |]. split.
  - intros k Hk. by apply updates_untouched.
  - intros Hi.
    rewrite !updates_untouched by (by apply (bool_decide_unpack _)).
    by destruct x.
Qed.

Lemma exported_decorators_keep_function_witness :
  live empty_world (PyFun 0) = true
  ∧ ∃ (σ' : world) (d : gmap string pyval),
      decorate_with [call_map PyNone; call_yields] (PyFun 0) empty_world =
        Some (PyRef (descriptor_loc empty_world (PyFun 0)), σ')
      ∧ heap σ' !! descriptor_loc empty_world (PyFun 0) = Some d
      ∧ (∀ k : string,
           k ∉ ["type"; "produces"; "numargs_expected"; "input_conversion";
                "output_method"; "output_type"; "flow_process_pass_in"] →
           d !! k = descriptor_before empty_world (PyFun 0) !! k)
      ∧ (isinstance_DecoratedFunction (PyFun 0) = false →
         d !! "function" = Some (PyFun 0)
         ∧ d !! "args" = Some PyNone
         ∧ d !! "kwargs" = Some PyNone).
Proof.
  split; [reflexivity |].
  exact (exported_decorators_keep_function (call_map PyNone) [call_yields]
           (PyFun 0) empty_world eq_refl).
Defined.

(** X6.  Whatever their arguments, exported decorators keep the entries
    a consumer switches on well typed: 'type' is one of 'none', 'map',
    'filter', 'reduce' and the four conversion entries hold members of
    their Java enum.  This holds from the start for a plain callable and
    is kept on a decorated function that had it. *)
Theorem exported_decorators_well_typed (c : decorator_call)
    (cs : list decorator_call) (x : pyval) (σ : world) :
  live σ x = true →
  (isinstance_DecoratedFunction x = true →
   well_typed_decorators (descriptor_before σ x) = true) →
  ∃ (σ' : world) (d : gmap string pyval),
    decorate_with (c :: cs) x σ = Some (PyRef (descriptor_loc σ x), σ')
    ∧ heap σ' !! descriptor_loc σ x = Some d
    ∧ well_typed_decorators d = true.
Proof.
  intros Hx Hwt. eexists _, _. split; [by apply decorate_with_live |].
  split; [apply heap_set_heap_insert |].
  apply well_typed_updates.
  destruct (isinstance_DecoratedFunction x) eqn:Hi; [by apply Hwt |].
  by destruct x.
Qed.

Lemma exported_decorators_well_typed_witness :
  live decorated_world (PyRef 7) = true
  ∧ well_typed_decorators (descriptor_before decorated_world (PyRef 7)) = true
  ∧ ∃ (σ' : world) (d : gmap string pyval),
      decorate_with [call_numargs_expected (PyInt (-1)); call_reduce PyNone]
        (PyRef 7) decorated_world =
        Some (PyRef (descriptor_loc decorated_world (PyRef 7)), σ')
      ∧ heap σ' !! descriptor_loc decorated_world (PyRef 7) = Some d
      ∧ well_typed_decorators d = true.
Proof.
  split; [reflexivity |]. split; [reflexivity |].
  exact (exported_decorators_well_typed (call_numargs_expected (PyInt (-1)))
           [call_reduce PyNone] (PyRef 7) decorated_world eq_refl
           (λ _, eq_refl)).
Defined.

(** X7.  After a stack of exported decorators on a plain callable the
    eight initial keys are all there, 'produces' is there exactly when a
    [map] or [reduce] was applied, 'numargs_expected' exactly when
    [numargs_expected] was, and there is no other key. *)
Theorem exported_decorators_keys (c : decorator_call)
    (cs : list decorator_call) (f : pyval) (σ : world) :
  isinstance_DecoratedFunction f = false →
  ∃ (σ' : world) (d : gmap string pyval),
    decorate_with (c :: cs) f σ = Some (PyRef (fresh (dom (heap σ))), σ')
    ∧ heap σ' !! fresh (dom (heap σ)) = Some d
    ∧ (∀ k : string, k ∈ dom (default_decorators f) → k ∈ dom d)
    ∧ ("produces" ∈ dom d ↔ existsb writes_produces (c :: cs) = true)
    ∧ ("numargs_expected" ∈ dom d ↔
       existsb writes_numargs_expected (c :: cs) = true)
    ∧ ∀ k : string,
        k ∈ dom d →
        k ∈ dom (default_decorators f)
        ∨ k = "produces" ∨ k = "numargs_expected".
Proof.
  intros Hf. eexists _, _. split; [by apply decorate_with_plain |].
  split; [apply heap_set_heap_insert |].
  set (ps := parameters_of <$> c :: cs).
  assert (∀ k, k ∈ dom (updates (default_decorators f) ps) ↔
    is_Some (last_write ps k) ∨ k ∈ dom (default_decorators f)) as Hdom.
  { intros k. rewrite !elem_of_dom, lookup_updates.
    destruct (last_write ps k); split; eauto. by intros [[? ?] | ?]. }
  assert (∀ k, k ∈ dom (default_decorators f) ↔
    k ∈ ["function"; "type"; "input_conversion"; "output_method";
         "output_type"; "flow_process_pass_in"; "args"; "kwargs"]) as Hdef.
  { intros k. unfold default_decorators.
    rewrite !dom_insert_L, dom_empty_L.
    rewrite !elem_of_union, !elem_of_singleton, elem_of_empty.
    rewrite !elem_of_cons, elem_of_nil. tauto. }
  split; [| split; [| split]].
  - intros k Hk. apply Hdom. by right.
  - rewrite Hdom, <- (last_write_produces (c :: cs)). split; [| by left].
    intros [H | H]; [done |]. apply Hdef in H.
    exfalso. revert H. by apply (bool_decide_unpack _).
  - rewrite Hdom, <- (last_write_numargs_expected (c :: cs)).
    split; [| by left].
    intros [H | H]; [done |]. apply Hdef in H.
    exfalso. revert H. by apply (bool_decide_unpack _).
  - intros k [Hk | Hk]%Hdom; [| by left].
    apply (last_write_keys (c :: cs)) in Hk. rewrite Hdef. revert Hk.
    rewrite !elem_of_cons, elem_of_nil. tauto.
Qed.

Lemma exported_decorators_keys_witness :
  isinstance_DecoratedFunction (PyFun 0) = false
  ∧ ∃ (σ' : world) (d : gmap string pyval),
      decorate_with [call_filter; call_collects_output] (PyFun 0) empty_world =
        Some (PyRef (fresh (dom (heap empty_world))), σ')
      ∧ heap σ' !! fresh (dom (heap empty_world)) = Some d
      ∧ (∀ k : string, k ∈ dom (default_decorators (PyFun 0)) → k ∈ dom d)
      ∧ ("produces" ∈ dom d ↔
         existsb writes_produces [call_filter; call_collects_output] = true)
      ∧ ("numargs_expected" ∈ dom d ↔
         existsb writes_numargs_expected [call_filter; call_collects_output]
           = true)
      ∧ ∀ k : string,
          k ∈ dom d →
          k ∈ dom (default_decorators (PyFun 0))
          ∨ k = "produces" ∨ k = "numargs_expected".
Proof.
  split; [reflexivity |].
  exact (exported_decorators_keys call_filter [call_collects_output]
           (PyFun 0) empty_world eq_refl).
Defined.

(** X8.  After a stack of exported decorators on a plain callable 'type'
    names the last of [map], [filter], [reduce] that was applied; it is
    still 'none' exactly when none of the three was. *)
Theorem exported_decorators_last_role (c : decorator_call)
    (cs : list decorator_call) (f : pyval) (σ : world) :
  isinstance_DecoratedFunction f = false →
  ∃ (σ' : world) (d : gmap string pyval),
    decorate_with (c :: cs) f σ = Some (PyRef (fresh (dom (heap σ))), σ')
    ∧ heap σ' !! fresh (dom (heap σ)) = Some d
    ∧ d !! "type" = Some (PyStr (default "none" (last_role (c :: cs))))
    ∧ (d !! "type" = Some (PyStr "none") ↔ last_role (c :: cs) = None).
Proof.
  intros Hf. eexists _, _. split; [by apply decorate_with_plain |].
  split; [apply heap_set_heap_insert |].
  assert (updates (default_decorators f) (parameters_of <$> c :: cs) !! "type"
          = Some (PyStr (default "none" (last_role (c :: cs))))) as Ht.
  { rewrite lookup_updates, last_write_type.
    by destruct (last_role (c :: cs)). }
  split; [done |]. rewrite Ht.
  destruct (last_role (c :: cs)) as [r |] eqn:Hr; simpl; [| done].
  apply last_role_not_none in Hr. split; [| done]. by intros [= ->].
Qed.

Lemma exported_decorators_last_role_witness :
  isinstance_DecoratedFunction (PyFun 0) = false
  ∧ ∃ (σ' : world) (d : gmap string pyval),
      decorate_with [call_map PyNone; call_yields; call_filter] (PyFun 0)
        empty_world = Some (PyRef (fresh (dom (heap empty_world))), σ')
      ∧ heap σ' !! fresh (dom (heap empty_world)) = Some d
      ∧ d !! "type" =
          Some (PyStr (default "none"
                         (last_role [call_map PyNone; call_yields; call_filter])))
      ∧ (d !! "type" = Some (PyStr "none") ↔
         last_role [call_map PyNone; call_yields; call_filter] = None).
Proof.
  split; [reflexivity |].
  exact (exported_decorators_last_role (call_map PyNone)
           [call_yields; call_filter] (PyFun 0) empty_world eq_refl).
Defined.

(** X9.  A decorator application keeps the store usable: the object it
    returns is live, every value that was live stays live, objects other
    than the returned one keep their dicts, and the store gains the
    returned object and nothing else. *)
Theorem fun_decorator_keeps_store (p : gmap string pyval) (x : pyval)
    (σ : world) :
  live σ x = true →
  ∃ σ' : world,
    decorators._function_decorator p x σ =
      Some (PyRef (descriptor_loc σ x), σ')
    ∧ live σ' (PyRef (descriptor_loc σ x)) = true
    ∧ (∀ y : pyval, live σ y = true → live σ' y = true)
    ∧ (∀ l' : loc, l' ≠ descriptor_loc σ x → heap σ' !! l' = heap σ !! l')
    ∧ dom (heap σ') = {[ descriptor_loc σ x ]} ∪ dom (heap σ).
Proof.
  intros Hx. eexists. unfold decorators._function_decorator.
  split; [by apply fun_decorator_live |]. split; [| split; [| split]].
  - simpl. by rewrite lookup_insert_eq.
  - intros y Hy. by apply live_set_heap_insert.
  - intros l' Hne. simpl. by rewrite lookup_insert_ne.
  - simpl. apply dom_insert_L.
Qed.

Lemma fun_decorator_keeps_store_witness :
  live decorated_world (PyFun 0) = true
  ∧ ∃ σ' : world,
      decorators._function_decorator {[ "type" := PyStr "filter" ]} (PyFun 0)
        decorated_world =
        Some (PyRef (descriptor_loc decorated_world (PyFun 0)), σ')
      ∧ live σ' (PyRef (descriptor_loc decorated_world (PyFun 0))) = true
      ∧ (∀ y : pyval, live decorated_world y = true → live σ' y = true)
      ∧ (∀ l' : loc, l' ≠ descriptor_loc decorated_world (PyFun 0) →
           heap σ' !! l' = heap decorated_world !! l')
      ∧ dom (heap σ') =
          {[ descriptor_loc decorated_world (PyFun 0) ]}
          ∪ dom (heap decorated_world).
Proof.
  split; [reflexivity |].
  exact (fun_decorator_keeps_store {[ "type" := PyStr "filter" ]} (PyFun 0)
           decorated_world eq_refl).
Defined.
